(** * geoplot.py: trajectory to GeoJSON

    A shallow embedding of [src/geoplot.py] (class [GeoPlot], method
    [render], helper [read_var]) and the properties of its feature
    assembly, timestamp synthesis and file output.

    Conventions of the embedding:
    - Python exceptions are values of [exn]; a computation that may raise
      returns a [result].  Each exception records the expression of
      [render] that raised it.
    - Array data (what [np.array(...)] holds and what [.tolist()] returns)
      is a nested sequence of scalars, [nested]; the scalars are the
      integers, floats and booleans of a numeric array, which [render]
      only moves around and [json.dump] always serialises.
    - A [pd.Timestamp] is an integer count of nanoseconds since the epoch;
      the wall-clock reading [pd.Timestamp.utcnow()] is an argument of
      [render].  [step_time] is a whole number of seconds.  The 64-bit
      range limit of pandas timestamps is outside the model.
    - The file system is a finite map from paths to file contents together
      with the set of paths that cannot be opened for writing. *)

From Stdlib Require Import ZArith List String Ascii Lia PrimFloat.
From stdpp Require Import base option list gmap strings pretty.

Set Warnings "-register-all".
Local Open Scope string_scope.

(** ** Exceptions and results *)

(** The expressions of [render] at which a lookup can fail. *)
Inductive site :=
| EpisodeAt      (* state_trajectory[i] *)
| FinalState     (* state_trajectory[i][-1] *)
| EnumerateCoords(* enumerate(coords) *)
| CoordLon       (* coord[1] *)
| CoordLat       (* coord[0] *)
| ValueAt        (* value_list[i] *)
| StartTime      (* timestamps[0] *)
| StopTime.      (* timestamps[-1] *)

Inductive exn :=
| KeyNotFound (key : string)      (* path resolution: key absent *)
| TypeMismatch (key : string)     (* path resolution: value not indexable *)
| NotAnArray (path : string)      (* path resolution: no array at the path *)
| IndexError (at_ : site)
| TypeError (at_ : site)
| FileWriteError (path : string)
| TemplateSubstitutionError.

(** The exceptions of path resolution (PathResolutionError in the
    specification). *)
Definition path_error (e : exn) : Prop :=
  match e with
  | KeyNotFound _ | TypeMismatch _ | NotAnArray _ => True
  | _ => False
  end.

Inductive result (A : Type) :=
| Ok (a : A)
| Err (e : exn).
Arguments Ok {A} a.
Arguments Err {A} e.

Definition bind {A B} (c : result A) (k : A -> result B) : result B :=
  match c with
  | Ok a => k a
  | Err e => Err e
  end.

Notation "'do' x <- c ; k" := (bind c (fun x => k))
  (at level 10, x pattern, c at level 100, k at level 200).

Definition of_option {A} (o : option A) (e : exn) : result A :=
  match o with
  | Some a => Ok a
  | None => Err e
  end.

(** Left-to-right traversal that stops at the first exception: a [for]
    loop or comprehension that appends one element per iteration. *)
Fixpoint mapM {A B} (f : A -> result B) (l : list A) : result (list B) :=
  match l with
  | [] => Ok []
  | x :: l' => do y <- f x; do ys <- mapM f l'; Ok (y :: ys)
  end.

(** A [for] loop that updates local variables [s]. *)
Fixpoint foldM {A S} (f : S -> A -> result S) (l : list A) (s : S) : result S :=
  match l with
  | [] => Ok s
  | x :: l' => do s' <- f s x; foldM f l' s'
  end.

(** ** Data *)

(** Python scalars as [.tolist()] produces them. *)
Inductive scalar :=
| PyInt (z : Z)
| PyFloat (f : float)
| PyBool (b : bool).

(** Array data: a scalar (a 0-d array) or a sequence of sub-arrays. *)
Inductive nested :=
| Item (x : scalar)
| Nest (xs : list nested).

(** [a.tolist()]: the nested Python list with the items of [a]. *)
Definition tolist (a : nested) : nested := a.

(** [a.flatten().tolist()]: the items of [a] in row-major order. *)
Fixpoint flatten (a : nested) : list scalar :=
  match a with
  | Item x => [x]
  | Nest xs => flat_map flatten xs
  end.

(** [v[i]] for a non-negative literal [i] on a value returned by
    [.tolist()]: a scalar is not subscriptable, a list raises out of
    range. *)
Definition subscript (v : nested) (i : nat) (at_ : site) : result nested :=
  match v with
  | Item _ => Err (TypeError at_)
  | Nest xs => of_option (xs !! i) (IndexError at_)
  end.

(** SimulationState: a hierarchical mapping with string keys whose leaves
    are arrays (tensors). *)
Inductive state :=
| Tensor (a : nested)
| Mapping (m : list (string * state)).

Fixpoint assoc (k : string) (m : list (string * state)) : option state :=
  match m with
  | [] => None
  | (k', v) :: m' => if String.eqb k k' then Some v else assoc k m'
  end.

(** Modelled from the spec: one step of the Nested-Path Resolver, a key
    lookup that fails with KeyNotFound when the key is absent and with
    TypeMismatch when the value is not a mapping ([get_by_path] of
    [agent_torch.core.helpers] is not part of the sources). *)
Definition getitem (s : state) (k : string) : result state :=
  match s with
  | Mapping m => of_option (assoc k m) (KeyNotFound k)
  | Tensor _ => Err (TypeMismatch k)
  end.

(** Modelled from the spec: the Nested-Path Resolver [resolve(state, path)]
    of section 4.1, walking the state with successive key lookups
    ([get_by_path] of [agent_torch.core.helpers] is not part of the
    sources). *)
Fixpoint get_by_path (root : state) (items : list string) : result state :=
  match items with
  | [] => Ok root
  | k :: ks => do s <- getitem root k; get_by_path s ks
  end.

(** [re.split(sep, s)] for a one-character pattern. *)
Fixpoint re_split (sep : ascii) (s : string) : list string :=
  match s with
  | EmptyString => [EmptyString]
  | String c rest =>
      if Ascii.eqb c sep then EmptyString :: re_split sep rest
      else match re_split sep rest with
           | [] => [String c EmptyString]
           | w :: ws => String c w :: ws
           end
  end.

Definition read_var (s : state) (var : string) : result state :=
  get_by_path s (re_split "/" var).

(** [np.array(read_var(s, var))]: the array stored at the path.  The
    simulation keeps arrays at the leaves; a path that stops at a mapping
    holds no array. *)
Definition np_array (s : state) (var : string) : result nested :=
  do v <- read_var s var;
  match v with
  | Tensor a => Ok a
  | Mapping _ => Err (NotAnArray var)
  end.

Abbreviation Timestamp := Z (only parsing).

Record Geometry := {
  geometry_type : string;
  coordinates : list nested }.

Record Properties := {
  value : scalar;
  time : string }.

Record Feature := {
  feature_type : string;
  geometry : Geometry;
  properties : Properties }.

Record FeatureCollection := {
  collection_type : string;
  features : list Feature }.

Record simulation_metadata := {
  name : string;
  num_episodes : Z;
  num_steps_per_episode : Z }.

(** The fields [__init__] stores on the [GeoPlot] object. *)
Record GeoPlot := {
  config : simulation_metadata;
  cesium_token : string;
  step_time : Z;
  entity_position : string;
  entity_property : string;
  visualization_type : string }.

(** ** The file system *)

Record filesystem := {
  files : gmap string string;
  locked : gset string }.

(** [open(path, "w")]: creates the file or truncates it to length zero. *)
Definition open_w (fs : filesystem) (path : string) : result filesystem :=
  if decide (path ∈ locked fs) then Err (FileWriteError path)
  else Ok {| files := <[path := ""]> (files fs); locked := locked fs |}.

(** [f.write(text)] on an open file: appends to what was written so far. *)
Definition write (fs : filesystem) (path text : string) : filesystem :=
  {| files := alter (fun old => old ++ text) path (files fs); locked := locked fs |}.

(** ** Timestamps *)

(** [pd.Timedelta(seconds=s)], in nanoseconds. *)
Definition Timedelta (s : Z) : Z := (s * 1000000000)%Z.

(** [range(n)] *)
Definition range (n : Z) : list Z := seqZ 0 n.

(** [enumerate(l)] *)
Definition enumerate {A} (l : list A) : list (nat * A) := zip (seq 0 (length l)) l.

(** Lines 73-79: the synthesized time axis. *)
Definition timestamps (self : GeoPlot) (start_time : Timestamp) : list Timestamp :=
  map (fun i => (start_time + Timedelta (i * step_time self))%Z)
      (range (num_episodes (config self) * num_steps_per_episode (config self))%Z).

(** ** render *)

Section Render.

(** Library functions whose text output the properties below never
    inspect: [Timestamp.isoformat], [json.dump(.., ensure_ascii=False,
    indent=2)], [json.dumps], and [Template(geoplot_template).substitute]
    for the page template, whose text the sources elide; [substitute]
    gives [None] where the library raises. *)
Variable isoformat : Timestamp -> string.
Variable json_dump : list FeatureCollection -> string.
Variable json_dumps : list FeatureCollection -> string.
Variable substitute : list (string * string) -> option string.

(** Lines 62-69: the body of the extraction loop, with the loop variables
    [coords] and [values] as the accumulator. *)
Definition extract_step (self : GeoPlot) (state_trajectory : list (list state))
    (acc : nested * list (list scalar)) (i : nat) : result (nested * list (list scalar)) :=
  do episode <- of_option (state_trajectory !! i) (IndexError EpisodeAt);
  do final_state <- of_option (last episode) (IndexError FinalState);
  do c <- np_array final_state (entity_position self);
  do v <- np_array final_state (entity_property self);
  Ok (tolist c, (snd acc ++ [flatten v])%list).

(** Lines 54 and 61-69: [coords, values = [], []] and the loop over
    [range(0, len(state_trajectory) - 1)]. *)
Definition extract (self : GeoPlot) (state_trajectory : list (list state))
    : result (nested * list (list scalar)) :=
  foldM (extract_step self state_trajectory)
        (seq 0 (length state_trajectory - 1)) (Nest [], []).

(** Lines 87-97: one Feature dictionary.  Python evaluates the dictionary
    display left to right: [coord[1]], [coord[0]], [value_list[i]]. *)
Definition feature (i : nat) (coord : nested) (tv : Timestamp * list scalar) : result Feature :=
  do lon <- subscript coord 1 CoordLon;
  do lat <- subscript coord 0 CoordLat;
  do v <- of_option (snd tv !! i) (IndexError ValueAt);
  Ok {| feature_type := "Feature";
        geometry := {| geometry_type := "Point"; coordinates := [lon; lat] |};
        properties := {| value := v; time := isoformat (fst tv) |} |}.

(** Lines 84-99: the body of the loop over the entities. *)
Definition collection (timestamps : list Timestamp) (values : list (list scalar))
    (ic : nat * nested) : result FeatureCollection :=
  do fs <- mapM (feature (fst ic) (snd ic)) (zip timestamps values);
  Ok {| collection_type := "FeatureCollection"; features := fs |}.

(** Lines 82-99: [enumerate] needs an iterable; a 0-d array became a bare
    scalar under [.tolist()]. *)
Definition geojsons_of (coords : nested) (timestamps : list Timestamp)
    (values : list (list scalar)) : result (list FeatureCollection) :=
  match coords with
  | Item _ => Err (TypeError EnumerateCoords)
  | Nest cs => mapM (collection timestamps values) (enumerate cs)
  end.

(** Lines 54-99: the Trajectory-to-GeoJSON Assembler, returning the
    feature collections and the time axis. *)
Definition assemble (self : GeoPlot) (start_time : Timestamp)
    (state_trajectory : list (list state))
    : result (list FeatureCollection * list Timestamp) :=
  do cv <- extract self state_trajectory;
  let ts := timestamps self start_time in
  do geojsons <- geojsons_of (fst cv) ts (snd cv);
  Ok (geojsons, ts).

Definition geodata_path (self : GeoPlot) : string := name (config self) ++ ".geojson".
Definition geoplot_path (self : GeoPlot) : string := name (config self) ++ ".html".

(** Lines 109-117: the text of the page; the mapping is built before
    [substitute] runs. *)
Definition page (self : GeoPlot) (geojsons : list FeatureCollection)
    (timestamps : list Timestamp) : result string :=
  do t0 <- of_option (timestamps !! 0%nat) (IndexError StartTime);
  do tn <- of_option (last timestamps) (IndexError StopTime);
  of_option
    (substitute [("accessToken", cesium_token self);
                 ("startTime", isoformat t0);
                 ("stopTime", isoformat tn);
                 ("data", json_dumps geojsons);
                 ("visualType", visualization_type self)])
    TemplateSubstitutionError.

(** Lines 53-118.  The outcome is the file system the call leaves behind
    and either [None]'s return or the exception raised. *)
Definition render (self : GeoPlot) (start_time : Timestamp)
    (state_trajectory : list (list state)) (fs : filesystem)
    : filesystem * result unit :=
  match assemble self start_time state_trajectory with
  | Err e => (fs, Err e)
  | Ok (geojsons, ts) =>
      match open_w fs (geodata_path self) with
      | Err e => (fs, Err e)
      | Ok fs1 =>
          let fs2 := write fs1 (geodata_path self) (json_dump geojsons) in
          match open_w fs2 (geoplot_path self) with
          | Err e => (fs2, Err e)
          | Ok fs3 =>
              match page self geojsons ts with
              | Err e => (fs3, Err e)
              | Ok text => (write fs3 (geoplot_path self) text, Ok tt)
              end
          end
      end
  end.

End Render.

(** ** The extraction loop, episode by episode

    Steps 1 to 3 of the assembler as the specification words them: every
    episode but the final one contributes the array data read from its
    last state. *)

(** What one processed episode contributes, given its last state. *)
Definition process_final (self : GeoPlot) (final : option state)
    : result (nested * list scalar) :=
  do final_state <- of_option final (IndexError FinalState);
  do c <- np_array final_state (entity_position self);
  do v <- np_array final_state (entity_property self);
  Ok (tolist c, flatten v).

(** The episodes the loop visits: indices [0 .. len - 2]. *)
Definition processed (state_trajectory : list (list state)) : list (list state) :=
  take (length state_trajectory - 1) state_trajectory.

(** Coordinates of the last processed episode (the initial [[]] when none
    was processed) and one value list per processed episode. *)
Definition extract_by_episode (self : GeoPlot) (state_trajectory : list (list state))
    : result (nested * list (list scalar)) :=
  do rows <- mapM (process_final self) (map last (processed state_trajectory));
  Ok (default (Nest []) (last (map fst rows)), map snd rows).

(** A trajectory on which feature assembly cannot fail, for the entity
    coordinates [cs] of the last processed episode: both paths resolve to
    arrays in the last state of every processed episode, every entity has
    at least two coordinate components, and every flattened property list
    covers all entities. *)
Record valid (self : GeoPlot) (state_trajectory : list (list state))
    (cs : list nested) : Prop := {
  valid_episode : forall i episode,
    processed state_trajectory !! i = Some episode ->
    exists final_state c v,
      last episode = Some final_state /\
      np_array final_state (entity_position self) = Ok c /\
      np_array final_state (entity_property self) = Ok v /\
      (length cs <= length (flatten v))%nat;
  valid_pairs : forall e c, cs !! e = Some c ->
    exists lat lon rest, c = Nest (lat :: lon :: rest) }.

(** Every processed episode's flattened property list is at least as
    long as the entity list of the last processed episode. *)
Definition values_cover_entities (self : GeoPlot)
    (state_trajectory : list (list state)) : Prop :=
  forall final_episode final_state cs,
    (2 <= length state_trajectory)%nat ->
    state_trajectory !! (length state_trajectory - 2)%nat = Some final_episode ->
    last final_episode = Some final_state ->
    np_array final_state (entity_position self) = Ok (Nest cs) ->
    forall i episode s v,
      processed state_trajectory !! i = Some episode ->
      last episode = Some s ->
      np_array s (entity_property self) = Ok v ->
      (length cs <= length (flatten v))%nat.

(** ** A worked trajectory

    Three episodes of two steps, two entities at [[1.0,2.0],[3.0,4.0]]
    with property values [[10,20]] (section 8 of the specification). *)
Module Sample.

Definition positions : nested :=
  Nest [Nest [Item (PyFloat 1.0); Item (PyFloat 2.0)];
        Nest [Item (PyFloat 3.0); Item (PyFloat 4.0)]].

Definition consumption : nested := Nest [Nest [Item (PyInt 10); Item (PyInt 20)]].

Definition households (pos use : nested) : state :=
  Mapping [("agents", Mapping [("households", Mapping [("pos", Tensor pos);
                                                        ("use", Tensor use)])])].

Definition st : state := households positions consumption.

Definition trajectory : list (list state) := [[st; st]; [st; st]; [st; st]].

(** The same entities with a single property value. *)
Definition short_st : state := households positions (Nest [Nest [Item (PyInt 10)]]).
Definition short_trajectory : list (list state) := [[short_st]; [short_st]].

Definition plot (n_episodes n_steps step : Z) : GeoPlot :=
  {| config := {| name := "sim"; num_episodes := n_episodes; num_steps_per_episode := n_steps |};
     cesium_token := "token";
     step_time := step;
     entity_position := "agents/households/pos";
     entity_property := "agents/households/use";
     visualization_type := "color" |}.

(** Stand-ins for the library functions, enough to run [render]. *)
Definition iso (t : Timestamp) : string := pretty t.
Definition dump (g : list FeatureCollection) : string :=
  "[" ++ pretty (length g) ++ " collections]".
Definition subst (m : list (string * string)) : option string :=
  Some (String.concat ";" (map snd m)).

Definition empty_fs : filesystem := {| files := ∅; locked := ∅ |}.

(** The entity coordinates of the worked trajectory. *)
Definition entities : list nested :=
  [Nest [Item (PyFloat 1.0); Item (PyFloat 2.0)];
   Nest [Item (PyFloat 3.0); Item (PyFloat 4.0)]].

(** The assembly of the worked trajectory, one-second steps from time 0. *)
Definition geojsons : list FeatureCollection :=
  Eval vm_compute in
    match assemble iso (plot 3 2 1) 0%Z trajectory with
    | Ok (g, _) => g
    | Err _ => []
    end.


End Sample.

(** ** Vocabulary for the further properties *)

(** The character [c] occurs in [s]. *)
Fixpoint contains (c : ascii) (s : string) : bool :=
  match s with
  | EmptyString => false
  | String c' rest => if Ascii.eqb c' c then true else contains c rest
  end.



(** ** Path splitting and the worked trajectory, by evaluation *)

Example re_split_path : re_split "/" "agents/citizens/pos" = ["agents"; "citizens"; "pos"].
Proof. reflexivity. Qed.

Example re_split_empty : re_split "/" "" = [""].
Proof. reflexivity. Qed.

Example sample_read_var :
  np_array Sample.st "agents/households/pos" = Ok Sample.positions.
Proof. reflexivity. Qed.

Example sample_read_var_missing :
  np_array Sample.st "agents/households/income" = Err (KeyNotFound "income").
Proof. reflexivity. Qed.

(** Section 8 of the specification: two FeatureCollections, the first at
    [[2.0, 1.0]], timestamps one second apart. *)
Example sample_assemble :
  length Sample.geojsons = 2%nat /\
  (coordinates ∘ geometry <$> (Sample.geojsons !! 0%nat ≫= fun fc => head (features fc)))
    = Some [Item (PyFloat 2.0); Item (PyFloat 1.0)] /\
  timestamps (Sample.plot 3 2 1) 0%Z
    = [0; 1000000000; 2000000000; 3000000000; 4000000000; 5000000000]%Z.
Proof. repeat split. Qed.

(** ** Results: inversion lemmas *)

Section Results.
Context {A B : Type}.

Lemma bind_Ok (c : result A) (k : A -> result B) (b : B) :
  bind c k = Ok b <-> exists a, c = Ok a /\ k a = Ok b.
Proof.
  destruct c as [a|e]; simpl; split.
  - intros H; exists a; auto.
  - intros (a' & Ha & Hk); congruence.
  - discriminate.
  - intros (a' & Ha & _); discriminate.
Qed.

Lemma bind_Err (c : result A) (k : A -> result B) (e : exn) :
  bind c k = Err e <-> c = Err e \/ exists a, c = Ok a /\ k a = Err e.
Proof.
  destruct c as [a|e']; simpl; split.
  - intros H; right; exists a; auto.
  - intros [Hc | (a' & Ha & Hk)]; congruence.
  - intros [= ->]; left; reflexivity.
  - intros [[= ->] | (a' & Ha & _)]; [reflexivity | discriminate].
Qed.

Lemma of_option_Ok (o : option A) (e : exn) (a : A) :
  of_option o e = Ok a <-> o = Some a.
Proof. destruct o; simpl; split; congruence. Qed.

Lemma of_option_Err (o : option A) (e e' : exn) :
  of_option o e = Err e' <-> o = None /\ e' = e.
Proof.
  destruct o; simpl; split; try congruence.
  - intros [? _]; discriminate.
  - intros H; split; congruence.
  - intros [_ ->]; reflexivity.
Qed.

End Results.

Section Traversals.
Context {A B : Type}.

Lemma mapM_Ok (f : A -> result B) (l : list A) (ys : list B) :
  mapM f l = Ok ys <-> Forall2 (fun x y => f x = Ok y) l ys.
Proof.
  revert ys; induction l as [|x l IH]; intros ys; cbn [mapM].
  - split; [intros [= <-]; constructor | intros H; inversion H; reflexivity].
  - split.
    + intros H. apply bind_Ok in H as (y & Hy & H).
      apply bind_Ok in H as (ys' & Hys & [= <-]).
      constructor; [exact Hy | apply IH, Hys].
    + intros H; inversion H as [|? y ? ys' Hy Hys]; subst.
      apply IH in Hys; rewrite Hy, Hys; reflexivity.
Qed.

Lemma mapM_Err (f : A -> result B) (l : list A) (e : exn) :
  mapM f l = Err e -> exists x, x ∈ l /\ f x = Err e.
Proof.
  induction l as [|x l IH]; cbn [mapM]; [discriminate|].
  intros H; apply bind_Err in H as [H | (y & _ & H)].
  - exists x; split; [left | exact H].
  - apply bind_Err in H as [H | (ys & _ & H)]; [|discriminate].
    destruct (IH H) as (x' & Hin & Hx'); exists x'; split; [right; exact Hin | exact Hx'].
Qed.

Lemma mapM_total (f : A -> result B) (l : list A) :
  (forall x, x ∈ l -> exists y, f x = Ok y) -> exists ys, mapM f l = Ok ys.
Proof.
  induction l as [|x l IH]; intros H; simpl.
  - exists []; reflexivity.
  - destruct (H x) as (y & Hy); [left|].
    destruct IH as (ys & Hys); [intros x' Hx'; apply H; right; exact Hx'|].
    exists (y :: ys); rewrite Hy, Hys; reflexivity.
Qed.

Lemma mapM_map {C} (g : C -> A) (f : A -> result B) (l : list C) :
  mapM f (map g l) = mapM (fun x => f (g x)) l.
Proof. induction l as [|x l IH]; simpl; [|rewrite IH]; reflexivity. Qed.

End Traversals.

(** Unfolds a successful chain of binds in a hypothesis into its steps. *)
Ltac ok_steps H :=
  repeat match type of H with
  | bind _ _ = Ok _ =>
      let a := fresh "a" in let Ha := fresh "Hstep" in
      apply bind_Ok in H as (a & Ha & H);
      try (apply of_option_Ok in Ha)
  end.

(** ** The extraction loop *)

Lemma enumerate_lookup {A} (l : list A) (i j : nat) (x : A) :
  enumerate l !! i = Some (j, x) <-> j = i /\ l !! i = Some x.
Proof.
  unfold enumerate; rewrite lookup_zip_with_Some; split.
  - intros (j' & x' & [= -> ->] & Hj & Hx).
    apply lookup_seq in Hj as [-> _]; auto.
  - intros [-> Hx]; exists i, x; split; [reflexivity|]; split; [|exact Hx].
    apply lookup_seq_lt, (lookup_lt_Some _ _ _ Hx).
Qed.

Lemma length_enumerate {A} (l : list A) : length (enumerate l) = length l.
Proof. unfold enumerate; rewrite length_zip_with, length_seq; lia. Qed.

Lemma default_last_cons {A} (d x : A) (l : list A) :
  default d (last (x :: l)) = default x (last l).
Proof. rewrite last_cons; destruct (last l); reflexivity. Qed.

Section Extraction.
Variable self : GeoPlot.
Variable state_trajectory : list (list state).

Lemma extract_step_process (acc : nested * list (list scalar)) (i : nat) (episode : list state) :
  state_trajectory !! i = Some episode ->
  extract_step self state_trajectory acc i =
  do row <- process_final self (last episode); Ok (fst row, (snd acc ++ [snd row])%list).
Proof.
  intros Hi; unfold extract_step, process_final; rewrite Hi; simpl.
  destruct (last episode) as [final_state|]; simpl; [|reflexivity].
  destruct (np_array final_state (entity_position self)); simpl; [|reflexivity].
  destruct (np_array final_state (entity_property self)); reflexivity.
Qed.

Lemma foldM_extract_step (n k : nat) (acc : nested * list (list scalar)) :
  (k + n <= length state_trajectory)%nat ->
  foldM (extract_step self state_trajectory) (seq k n) acc =
  do rows <- mapM (process_final self) (map last (take n (drop k state_trajectory)));
  Ok (default (fst acc) (last (map fst rows)), (snd acc ++ map snd rows)%list).
Proof.
  revert k acc; induction n as [|n IH]; intros k [coords values] Hk; simpl.
  - rewrite app_nil_r; reflexivity.
  - destruct (lookup_lt_is_Some_2 state_trajectory k) as [episode Hep]; [lia|].
    rewrite (drop_S _ _ _ Hep); simpl.
    rewrite (extract_step_process _ _ _ Hep).
    destruct (process_final self (last episode)) as [[c v]|e]; simpl; [|reflexivity].
    rewrite IH by lia; simpl.
    destruct (mapM _ _) as [rows|e]; simpl; [|reflexivity].
    rewrite default_last_cons, <- app_assoc; reflexivity.
Qed.

(** The loop of lines 61-69 computes what the episode-by-episode
    description says. *)
Lemma extract_by_episode_eq :
  extract self state_trajectory = extract_by_episode self state_trajectory.
Proof.
  unfold extract, extract_by_episode, processed.
  rewrite foldM_extract_step by (simpl; lia); rewrite drop_0; reflexivity.
Qed.

End Extraction.

Section ExtractionFacts.
Variable self : GeoPlot.
Variable state_trajectory : list (list state).

Lemma process_final_Ok (final : option state) (row : nested * list scalar) :
  process_final self final = Ok row <->
  exists final_state v,
    final = Some final_state /\
    np_array final_state (entity_position self) = Ok (fst row) /\
    np_array final_state (entity_property self) = Ok v /\
    snd row = flatten v.
Proof.
  unfold process_final, tolist; split.
  - intros H; ok_steps H; injection H as <-; eauto 10.
  - intros (final_state & v & -> & Hc & Hv & Hrow); simpl.
    rewrite Hc, Hv; simpl; destruct row; simpl in *; congruence.
Qed.

Lemma length_processed :
  length (processed state_trajectory) = (length state_trajectory - 1)%nat.
Proof. unfold processed; rewrite length_take; lia. Qed.

Lemma processed_lookup (i : nat) (episode : list state) :
  processed state_trajectory !! i = Some episode ->
  (i < length state_trajectory - 1)%nat /\ state_trajectory !! i = Some episode.
Proof. unfold processed; intros H; apply lookup_take_Some in H; tauto. Qed.

(** The rows behind a successful extraction. *)
Lemma extract_Ok (coords : nested) (values : list (list scalar)) :
  extract self state_trajectory = Ok (coords, values) <->
  exists rows,
    Forall2 (fun episode row => process_final self (last episode) = Ok row)
            (processed state_trajectory) rows /\
    coords = default (Nest []) (last (map fst rows)) /\
    values = map snd rows.
Proof.
  rewrite extract_by_episode_eq; unfold extract_by_episode.
  rewrite mapM_map; split.
  - intros H; apply bind_Ok in H as (rows & Hrows & [= <- <-]).
    exists rows; split; [apply mapM_Ok, Hrows | auto].
  - intros (rows & Hrows & -> & ->).
    apply mapM_Ok in Hrows; rewrite Hrows; reflexivity.
Qed.

(** [values] holds one flattened property list per processed episode. *)
Lemma extract_values (coords : nested) (values : list (list scalar)) :
  extract self state_trajectory = Ok (coords, values) ->
  Forall2 (fun episode value_list => exists final_state v,
             last episode = Some final_state /\
             np_array final_state (entity_property self) = Ok v /\
             value_list = flatten v)
          (processed state_trajectory) values.
Proof.
  intros H; apply extract_Ok in H as (rows & Hrows & _ & ->).
  apply Forall2_fmap_r; eapply Forall2_impl; [exact Hrows|].
  intros episode row Hrow; apply process_final_Ok in Hrow as (s & v & Hs & _ & Hv & Hr).
  exists s, v; auto.
Qed.

(** [coords] is what the last processed episode stores at the position
    path. *)
Lemma extract_coords (coords : nested) (values : list (list scalar))
    (episode : list state) (final_state : state) :
  extract self state_trajectory = Ok (coords, values) ->
  (2 <= length state_trajectory)%nat ->
  state_trajectory !! (length state_trajectory - 2)%nat = Some episode ->
  last episode = Some final_state ->
  np_array final_state (entity_position self) = Ok coords.
Proof.
  intros H Hlen Hep Hlast; apply extract_Ok in H as (rows & Hrows & -> & _).
  pose proof (Forall2_length _ _ _ Hrows) as Hn; rewrite length_processed in Hn.
  assert (Hp : processed state_trajectory !! (length state_trajectory - 2)%nat = Some episode).
  { unfold processed; rewrite lookup_take_lt by lia; exact Hep. }
  destruct (Forall2_lookup_l _ _ _ _ _ Hrows Hp) as (row & Hrow & Hproc).
  rewrite Hlast in Hproc; apply process_final_Ok in Hproc as (s & v & [= <-] & Hc & _).
  rewrite fmap_last, last_lookup, <- Hn.
  replace (pred (length state_trajectory - 1)) with (length state_trajectory - 2)%nat by lia.
  rewrite Hrow; exact Hc.
Qed.

(** With fewer than two episodes the loop body never runs. *)
Lemma extract_short :
  (length state_trajectory < 2)%nat ->
  extract self state_trajectory = Ok (Nest [], []).
Proof.
  intros Hlen; unfold extract.
  replace (length state_trajectory - 1)%nat with 0%nat by lia; reflexivity.
Qed.

Lemma extract_valid (cs : list nested) (episode : list state) (final_state : state) :
  valid self state_trajectory cs ->
  (2 <= length state_trajectory)%nat ->
  state_trajectory !! (length state_trajectory - 2)%nat = Some episode ->
  last episode = Some final_state ->
  np_array final_state (entity_position self) = Ok (Nest cs) ->
  exists values,
    extract self state_trajectory = Ok (Nest cs, values) /\
    Forall (fun value_list => (length cs <= length value_list)%nat) values.
Proof.
  intros [Hepisodes _] Hlen Hep Hlast Hcs.
  destruct (mapM_total (fun ep => process_final self (last ep)) (processed state_trajectory))
    as (rows & Hrows).
  { intros ep Hin; apply list_elem_of_lookup in Hin as (i & Hi).
    destruct (Hepisodes i ep Hi) as (s & c & v & Hs & Hc & Hv & _).
    exists (c, flatten v); apply process_final_Ok; exists s, v; auto. }
  apply mapM_Ok in Hrows.
  assert (Hex : extract self state_trajectory =
                Ok (default (Nest []) (last (map fst rows)), map snd rows)).
  { apply extract_Ok; exists rows; auto. }
  pose proof (extract_coords _ _ _ _ Hex Hlen Hep Hlast) as Hc.
  rewrite Hcs in Hc; injection Hc as Hc; rewrite <- Hc in Hex.
  exists (map snd rows); split; [exact Hex|].
  apply Forall_lookup; intros i vl Hvl.
  apply list_lookup_fmap_Some in Hvl as (row & -> & Hrow).
  destruct (Forall2_lookup_r _ _ _ _ _ Hrows Hrow) as (ep & Hi & Hproc).
  destruct (Hepisodes i ep Hi) as (s & c & v & Hs & _ & Hv & Hle).
  rewrite Hs in Hproc; apply process_final_Ok in Hproc as (s' & v' & [= <-] & _ & Hv' & ->).
  congruence.
Qed.

End ExtractionFacts.

(** ** Timestamps *)

Lemma length_timestamps (self : GeoPlot) (start_time : Timestamp) :
  length (timestamps self start_time) =
  Z.to_nat (num_episodes (config self) * num_steps_per_episode (config self)).
Proof. unfold timestamps, range; rewrite length_map; apply length_seqZ. Qed.

Lemma timestamps_lookup (self : GeoPlot) (start_time : Timestamp) (i : nat) (t : Timestamp) :
  timestamps self start_time !! i = Some t <->
  (Z.of_nat i < num_episodes (config self) * num_steps_per_episode (config self))%Z /\
  t = (start_time + Timedelta (Z.of_nat i * step_time self))%Z.
Proof.
  unfold timestamps, range.
  change (map ?f ?l) with (f <$> l); rewrite list_lookup_fmap_Some; split.
  - intros (k & -> & Hk); apply lookup_seqZ in Hk as [-> Hlt]; auto.
  - intros [Hlt ->]; exists (Z.of_nat i); split; [reflexivity|].
    apply lookup_seqZ; auto.
Qed.

(** ** Feature assembly *)

Section Assembly.
Variable isoformat : Timestamp -> string.

Lemma feature_Ok (i : nat) (coord : nested) (tv : Timestamp * list scalar) (f : Feature) :
  feature isoformat i coord tv = Ok f <->
  exists lon lat v,
    subscript coord 1 CoordLon = Ok lon /\
    subscript coord 0 CoordLat = Ok lat /\
    snd tv !! i = Some v /\
    f = {| feature_type := "Feature";
           geometry := {| geometry_type := "Point"; coordinates := [lon; lat] |};
           properties := {| value := v; time := isoformat (fst tv) |} |}.
Proof.
  unfold feature; split.
  - intros H; ok_steps H; injection H as <-; eauto 10.
  - intros (lon & lat & v & -> & -> & Hv & ->); simpl; rewrite Hv; reflexivity.
Qed.

Lemma collection_Ok (ts : list Timestamp) (values : list (list scalar))
    (ic : nat * nested) (fc : FeatureCollection) :
  collection isoformat ts values ic = Ok fc <->
  collection_type fc = "FeatureCollection" /\
  Forall2 (fun tv f => feature isoformat (fst ic) (snd ic) tv = Ok f)
          (zip ts values) (features fc).
Proof.
  unfold collection; split.
  - intros H; apply bind_Ok in H as (fs & Hfs & [= <-]); simpl.
    split; [reflexivity | apply mapM_Ok, Hfs].
  - intros [Hty Hfs]; apply mapM_Ok in Hfs; rewrite Hfs; simpl.
    destruct fc; simpl in *; subst; reflexivity.
Qed.

Lemma geojsons_of_Ok (coords : nested) (ts : list Timestamp)
    (values : list (list scalar)) (geojsons : list FeatureCollection) :
  geojsons_of isoformat coords ts values = Ok geojsons <->
  exists cs, coords = Nest cs /\
    Forall2 (fun ic fc => collection isoformat ts values ic = Ok fc)
            (enumerate cs) geojsons.
Proof.
  unfold geojsons_of; destruct coords as [x|cs]; split.
  - discriminate.
  - intros (cs & [=] & _).
  - intros H; exists cs; split; [reflexivity | apply mapM_Ok, H].
  - intros (cs' & [= <-] & H); apply mapM_Ok, H.
Qed.

Lemma assemble_Ok (self : GeoPlot) (start_time : Timestamp)
    (state_trajectory : list (list state))
    (geojsons : list FeatureCollection) (ts : list Timestamp) :
  assemble isoformat self start_time state_trajectory = Ok (geojsons, ts) <->
  exists coords values,
    extract self state_trajectory = Ok (coords, values) /\
    ts = timestamps self start_time /\
    geojsons_of isoformat coords ts values = Ok geojsons.
Proof.
  unfold assemble; split.
  - intros H; apply bind_Ok in H as ([coords values] & Hex & H); simpl in H.
    apply bind_Ok in H as (g & Hg & [= <- <-]); eauto.
  - intros (coords & values & -> & -> & Hg); simpl; rewrite Hg; reflexivity.
Qed.

(** What every Feature of a successful assembly looks like: entity [e],
    position [j] on the time axis. *)
Lemma assemble_features (self : GeoPlot) (start_time : Timestamp)
    (state_trajectory : list (list state))
    (geojsons : list FeatureCollection) (ts : list Timestamp) :
  assemble isoformat self start_time state_trajectory = Ok (geojsons, ts) ->
  exists cs values,
    extract self state_trajectory = Ok (Nest cs, values) /\
    ts = timestamps self start_time /\
    length geojsons = length cs /\
    forall e fc, geojsons !! e = Some fc ->
      exists coord, cs !! e = Some coord /\
        length (features fc) = min (length ts) (length values) /\
        forall j f, features fc !! j = Some f ->
          exists t value_list lon lat v,
            ts !! j = Some t /\ values !! j = Some value_list /\
            subscript coord 1 CoordLon = Ok lon /\
            subscript coord 0 CoordLat = Ok lat /\
            value_list !! e = Some v /\
            f = {| feature_type := "Feature";
                   geometry := {| geometry_type := "Point"; coordinates := [lon; lat] |};
                   properties := {| value := v; time := isoformat t |} |}.
Proof.
  intros H; apply assemble_Ok in H as (coords & values & Hex & Hts & Hg).
  apply geojsons_of_Ok in Hg as (cs & -> & Hg).
  exists cs, values; split; [exact Hex|]; split; [exact Hts|]; split.
  { rewrite <- (Forall2_length _ _ _ Hg); apply length_enumerate. }
  intros e fc Hfc.
  destruct (Forall2_lookup_r _ _ _ _ _ Hg Hfc) as ([e' coord] & Hic & Hcoll).
  apply enumerate_lookup in Hic as [-> Hcoord].
  apply collection_Ok in Hcoll as [_ Hfs]; simpl in Hfs.
  exists coord; split; [exact Hcoord|]; split.
  { rewrite <- (Forall2_length _ _ _ Hfs); apply length_zip_with. }
  intros j f Hf.
  destruct (Forall2_lookup_r _ _ _ _ _ Hfs Hf) as ([t vl] & Htv & Hfeat).
  apply lookup_zip_with_Some in Htv as (t' & vl' & [= <- <-] & Ht & Hvl).
  apply feature_Ok in Hfeat as (lon & lat & v & Hlon & Hlat & Hv & ->).
  exists t, vl, lon, lat, v; auto 10.
Qed.

(** Feature assembly succeeds on well-shaped data. *)
Lemma geojsons_of_total (cs : list nested) (ts : list Timestamp)
    (values : list (list scalar)) :
  (forall e c, cs !! e = Some c -> exists lat lon rest, c = Nest (lat :: lon :: rest)) ->
  Forall (fun value_list => (length cs <= length value_list)%nat) values ->
  exists geojsons, geojsons_of isoformat (Nest cs) ts values = Ok geojsons.
Proof.
  intros Hpairs Hvalues; unfold geojsons_of; apply mapM_total.
  intros [e c] Hin; apply list_elem_of_lookup in Hin as (i & Hi).
  apply enumerate_lookup in Hi as [-> Hc].
  destruct (Hpairs _ _ Hc) as (lat & lon & rest & ->).
  destruct (mapM_total (feature isoformat i (Nest (lat :: lon :: rest))) (zip ts values))
    as (fs & Hfs).
  { intros [t vl] Hin; apply list_elem_of_lookup in Hin as (j & Hj).
    apply lookup_zip_with_Some in Hj as (t' & vl' & [= <- <-] & _ & Hvl).
    pose proof (Forall_lookup_1 _ _ _ _ Hvalues Hvl) as Hle; simpl in Hle.
    destruct (lookup_lt_is_Some_2 vl i) as [v Hv].
    { apply lookup_lt_Some in Hc; lia. }
    eexists; apply feature_Ok; exists lon, lat, v; simpl; auto. }
  unfold collection; simpl; rewrite Hfs; simpl; eauto.
Qed.

End Assembly.

(** ** Errors of path resolution *)

Lemma get_by_path_Err (items : list string) (root : state) (e : exn) :
  get_by_path root items = Err e -> path_error e.
Proof.
  revert root; induction items as [|k ks IH]; intros root; cbn [get_by_path]; [discriminate|].
  intros H; apply bind_Err in H as [H | (s & _ & H)]; [|exact (IH _ H)].
  destruct root as [a|m]; simpl in H.
  - injection H as <-; exact I.
  - apply of_option_Err in H as [_ ->]; exact I.
Qed.

Lemma np_array_Err (s : state) (var : string) (e : exn) :
  np_array s var = Err e -> path_error e.
Proof.
  unfold np_array, read_var; intros H.
  apply bind_Err in H as [H | ([a|m] & _ & H)].
  - exact (get_by_path_Err _ _ _ H).
  - discriminate.
  - injection H as <-; exact I.
Qed.

(** The extraction loop raises only for a processed episode without
    states or for a path that does not resolve. *)
Lemma extract_Err (self : GeoPlot) (state_trajectory : list (list state)) (e : exn) :
  extract self state_trajectory = Err e ->
  e = IndexError FinalState \/ path_error e.
Proof.
  rewrite extract_by_episode_eq; unfold extract_by_episode; intros H.
  apply bind_Err in H as [H | (rows & _ & H)]; [|discriminate].
  apply mapM_Err in H as (final & _ & H); unfold process_final in H.
  apply bind_Err in H as [H | (s & _ & H)].
  { apply of_option_Err in H as [_ ->]; left; reflexivity. }
  apply bind_Err in H as [H | (c & _ & H)]; [right; exact (np_array_Err _ _ _ H)|].
  apply bind_Err in H as [H | (v & _ & H)]; [right; exact (np_array_Err _ _ _ H)|].
  discriminate.
Qed.

(** ** Output files *)

Lemma paths_differ (self : GeoPlot) : geodata_path self <> geoplot_path self.
Proof.
  unfold geodata_path, geoplot_path.
  induction (name (config self)) as [|c s IH]; simpl.
  - discriminate.
  - intros [= H]; exact (IH H).
Qed.

Lemma open_w_Ok (fs fs' : filesystem) (path : string) :
  open_w fs path = Ok fs' <->
  (path ∉ locked fs) /\ fs' = {| files := <[path := ""]> (files fs); locked := locked fs |}.
Proof.
  unfold open_w; destruct (decide (path ∈ locked fs)); split.
  - discriminate.
  - intros [Hn _]; contradiction.
  - intros [= <-]; auto.
  - intros [_ ->]; reflexivity.
Qed.

Lemma open_w_Err (fs : filesystem) (path : string) (e : exn) :
  open_w fs path = Err e <-> path ∈ locked fs /\ e = FileWriteError path.
Proof.
  unfold open_w; destruct (decide (path ∈ locked fs)); split.
  - intros [= <-]; auto.
  - intros [_ ->]; reflexivity.
  - discriminate.
  - intros [Hin _]; contradiction.
Qed.

(** Opening a file for writing and writing [text] once leaves exactly
    [text] in it. *)
Lemma write_opened (fs : filesystem) (path text : string) :
  write {| files := <[path := ""]> (files fs); locked := locked fs |} path text =
  {| files := <[path := text]> (files fs); locked := locked fs |}.
Proof. unfold write; simpl; rewrite alter_insert_eq; reflexivity. Qed.

Section Rendering.
Variable isoformat : Timestamp -> string.
Variable json_dump : list FeatureCollection -> string.
Variable json_dumps : list FeatureCollection -> string.
Variable substitute : list (string * string) -> option string.

Abbreviation render' := (render isoformat json_dump json_dumps substitute).
Abbreviation page' := (page isoformat json_dumps substitute).

Lemma render_assemble_Err (self : GeoPlot) (start_time : Timestamp)
    (state_trajectory : list (list state)) (fs : filesystem) (e : exn) :
  assemble isoformat self start_time state_trajectory = Err e ->
  render' self start_time state_trajectory fs = (fs, Err e).
Proof. unfold render; intros ->; reflexivity. Qed.

(** The output stage of [render], once the feature collections exist. *)
Lemma render_assembled (self : GeoPlot) (start_time : Timestamp)
    (state_trajectory : list (list state)) (fs : filesystem)
    (geojsons : list FeatureCollection) (ts : list Timestamp) :
  assemble isoformat self start_time state_trajectory = Ok (geojsons, ts) ->
  render' self start_time state_trajectory fs =
  if decide (geodata_path self ∈ locked fs) then (fs, Err (FileWriteError (geodata_path self)))
  else
    let written := <[geodata_path self := json_dump geojsons]> (files fs) in
    if decide (geoplot_path self ∈ locked fs)
    then ({| files := written; locked := locked fs |}, Err (FileWriteError (geoplot_path self)))
    else match page' self geojsons ts with
         | Err e => ({| files := <[geoplot_path self := ""]> written; locked := locked fs |}, Err e)
         | Ok text => ({| files := <[geoplot_path self := text]> written; locked := locked fs |}, Ok tt)
         end.
Proof.
  unfold render; intros ->; unfold open_w at 1.
  destruct (decide (geodata_path self ∈ locked fs)); [reflexivity|].
  rewrite (write_opened fs (geodata_path self)); unfold open_w; simpl.
  destruct (decide (geoplot_path self ∈ locked fs)); [reflexivity|].
  destruct (page' self geojsons ts); [|reflexivity].
  exact (f_equal (fun fs' => (fs', Ok tt)) (write_opened
    {| files := <[geodata_path self := json_dump geojsons]> (files fs); locked := locked fs |}
    (geoplot_path self) _)).
Qed.

Lemma page_Err (self : GeoPlot) (geojsons : list FeatureCollection)
    (ts : list Timestamp) (e : exn) :
  page' self geojsons ts = Err e ->
  e = IndexError StartTime \/ e = IndexError StopTime \/ e = TemplateSubstitutionError.
Proof.
  unfold page; intros H.
  apply bind_Err in H as [H | (t0 & _ & H)]; [apply of_option_Err in H as [_ ->]; auto|].
  apply bind_Err in H as [H | (tn & _ & H)]; [apply of_option_Err in H as [_ ->]; auto|].
  apply of_option_Err in H as [_ ->]; auto.
Qed.

End Rendering.

(** ** The properties of [render] *)

Section Claims.
Variable isoformat : Timestamp -> string.
Variable json_dump : list FeatureCollection -> string.
Variable json_dumps : list FeatureCollection -> string.
Variable substitute : list (string * string) -> option string.

Abbreviation assemble' := (assemble isoformat).
Abbreviation render' := (render isoformat json_dump json_dumps substitute).
Abbreviation page' := (page isoformat json_dumps substitute).

(** C1. Coordinate order: when the position path resolves, in the last
    state of the last processed episode, to an array whose entry for
    entity [e] is the pair [[lat, lon]], every Feature of the [e]-th
    FeatureCollection has [geometry.coordinates = [lon, lat]]. *)
Theorem C1_coordinates_lon_lat (self : GeoPlot) (start_time : Timestamp)
    (state_trajectory : list (list state))
    (geojsons : list FeatureCollection) (ts : list Timestamp)
    (episode : list state) (final_state : state) (cs : list nested)
    (e : nat) (lat lon : nested) (fc : FeatureCollection) (f : Feature) :
  assemble' self start_time state_trajectory = Ok (geojsons, ts) ->
  (2 <= length state_trajectory)%nat ->
  state_trajectory !! (length state_trajectory - 2)%nat = Some episode ->
  last episode = Some final_state ->
  np_array final_state (entity_position self) = Ok (Nest cs) ->
  cs !! e = Some (Nest [lat; lon]) ->
  geojsons !! e = Some fc ->
  f ∈ features fc ->
  coordinates (geometry f) = [lon; lat].
Proof.
  intros Hasm Hlen Hep Hlast Hpos Hpair Hfc Hf.
  apply assemble_features in Hasm as (cs' & values & Hex & _ & _ & Hall).
  pose proof (extract_coords _ _ _ _ _ _ Hex Hlen Hep Hlast) as Hc.
  rewrite Hpos in Hc; injection Hc as <-.
  destruct (Hall e fc Hfc) as (coord & Hcoord & _ & Hfeat).
  rewrite Hpair in Hcoord; injection Hcoord as <-.
  apply list_elem_of_lookup in Hf as (j & Hj).
  destruct (Hfeat j f Hj) as (t & vl & lon' & lat' & v & _ & _ & Hlon & Hlat & _ & ->).
  simpl in Hlon, Hlat; injection Hlon as <-; injection Hlat as <-; reflexivity.
Qed.

(** C2. One FeatureCollection per entity: for a trajectory of at least
    two episodes whose last processed episode stores the entity
    coordinates [cs], every successful assembly returns exactly
    [length cs] FeatureCollections, and on a valid trajectory the assembly
    does succeed. *)
Theorem C2_one_collection_per_entity (self : GeoPlot) (start_time : Timestamp)
    (state_trajectory : list (list state))
    (episode : list state) (final_state : state) (cs : list nested) :
  (2 <= length state_trajectory)%nat ->
  state_trajectory !! (length state_trajectory - 2)%nat = Some episode ->
  last episode = Some final_state ->
  np_array final_state (entity_position self) = Ok (Nest cs) ->
  (forall geojsons ts,
     assemble' self start_time state_trajectory = Ok (geojsons, ts) ->
     length geojsons = length cs) /\
  (valid self state_trajectory cs ->
   exists geojsons,
     assemble' self start_time state_trajectory
       = Ok (geojsons, timestamps self start_time) /\
     length geojsons = length cs).
Proof.
  intros Hlen Hep Hlast Hpos.
  assert (Hcount : forall geojsons ts,
             assemble' self start_time state_trajectory = Ok (geojsons, ts) ->
             length geojsons = length cs).
  { intros geojsons ts Hasm.
    apply assemble_features in Hasm as (cs' & values & Hex & _ & Hn & _).
    pose proof (extract_coords _ _ _ _ _ _ Hex Hlen Hep Hlast) as Hc.
    rewrite Hpos in Hc; injection Hc as <-; exact Hn. }
  split; [exact Hcount|].
  intros Hvalid.
  destruct (extract_valid _ _ _ _ _ Hvalid Hlen Hep Hlast Hpos) as (values & Hex & Hcover).
  destruct (geojsons_of_total isoformat cs (timestamps self start_time) values
              (valid_pairs _ _ _ Hvalid) Hcover) as (geojsons & Hg).
  assert (Hasm : assemble' self start_time state_trajectory
                 = Ok (geojsons, timestamps self start_time)).
  { apply assemble_Ok; exists (Nest cs), values; auto. }
  exists geojsons; split; [exact Hasm | exact (Hcount _ _ Hasm)].
Qed.

(** C3. Episodes visited and coordinates used: the extraction loop
    computes the episode-by-episode description over the episodes
    [0 .. len - 2]; the outcome of the assembly depends on the trajectory
    only through the last states of those episodes; and in a successful
    assembly the coordinates stored by the last processed episode (index
    [len - 2]) are the ones every Feature of every entity is built from. *)
Theorem C3_processed_episodes (self : GeoPlot) (start_time : Timestamp)
    (state_trajectory : list (list state)) :
  extract self state_trajectory = extract_by_episode self state_trajectory /\
  (forall i episode,
     processed state_trajectory !! i = Some episode <->
     (i < length state_trajectory - 1)%nat /\ state_trajectory !! i = Some episode) /\
  (forall other,
     map last (processed other) = map last (processed state_trajectory) ->
     assemble' self start_time other = assemble' self start_time state_trajectory) /\
  (forall geojsons ts,
     assemble' self start_time state_trajectory = Ok (geojsons, ts) ->
     exists cs,
       ((length state_trajectory < 2)%nat -> cs = []) /\
       (forall episode final_state,
          (2 <= length state_trajectory)%nat ->
          state_trajectory !! (length state_trajectory - 2)%nat = Some episode ->
          last episode = Some final_state ->
          np_array final_state (entity_position self) = Ok (Nest cs)) /\
       forall e fc f, geojsons !! e = Some fc -> f ∈ features fc ->
         exists coord lon lat,
           cs !! e = Some coord /\
           subscript coord 1 CoordLon = Ok lon /\
           subscript coord 0 CoordLat = Ok lat /\
           coordinates (geometry f) = [lon; lat]).
Proof.
  split; [apply extract_by_episode_eq|]; split; [|split].
  - intros i episode; unfold processed; rewrite lookup_take_Some; tauto.
  - intros other Heq; unfold assemble.
    rewrite !extract_by_episode_eq; unfold extract_by_episode; rewrite Heq; reflexivity.
  - intros geojsons ts Hasm.
    apply assemble_features in Hasm as (cs & values & Hex & _ & _ & Hall).
    exists cs; split; [|split].
    + intros Hshort; rewrite (extract_short _ _ Hshort) in Hex; congruence.
    + intros episode final_state Hlen Hep Hlast.
      exact (extract_coords _ _ _ _ _ _ Hex Hlen Hep Hlast).
    + intros e fc f Hfc Hf.
      destruct (Hall e fc Hfc) as (coord & Hcoord & _ & Hfeat).
      apply list_elem_of_lookup in Hf as (j & Hj).
      destruct (Hfeat j f Hj) as (t & vl & lon & lat & v & _ & _ & Hlon & Hlat & _ & ->).
      exists coord, lon, lat; auto.
Qed.

(** C4. The time axis: [range(num_episodes * num_steps_per_episode)]
    timestamps are synthesized, the [i]-th being the start time plus
    [i * step_time] seconds, and a successful assembly returns exactly
    this sequence. *)
Theorem C4_timestamps_synthesized (self : GeoPlot) (start_time : Timestamp)
    (state_trajectory : list (list state)) :
  Z.of_nat (length (timestamps self start_time))
    = Z.max 0 (num_episodes (config self) * num_steps_per_episode (config self)) /\
  (forall i : nat,
     (Z.of_nat i < num_episodes (config self) * num_steps_per_episode (config self))%Z ->
     timestamps self start_time !! i
       = Some (start_time + Timedelta (Z.of_nat i * step_time self))%Z) /\
  (forall geojsons ts,
     assemble' self start_time state_trajectory = Ok (geojsons, ts) ->
     ts = timestamps self start_time).
Proof.
  split; [|split].
  - rewrite length_timestamps; lia.
  - intros i Hi; apply timestamps_lookup; auto.
  - intros geojsons ts Hasm; apply assemble_Ok in Hasm as (? & ? & _ & Hts & _); exact Hts.
Qed.

(** C5. Features per collection: [values] has one flattened property list
    per processed episode, the pairing of timestamps and value lists stops
    at the shorter sequence, so every FeatureCollection holds
    [min (number of timestamps) (number of processed episodes)] Features,
    and the [j]-th Feature of entity [e] carries the [e]-th scalar of the
    [j]-th value list and the [j]-th timestamp. *)
Theorem C5_features_per_collection (self : GeoPlot) (start_time : Timestamp)
    (state_trajectory : list (list state))
    (geojsons : list FeatureCollection) (ts : list Timestamp) :
  assemble' self start_time state_trajectory = Ok (geojsons, ts) ->
  exists values : list (list scalar),
    Forall2 (fun episode value_list => exists final_state v,
               last episode = Some final_state /\
               np_array final_state (entity_property self) = Ok v /\
               value_list = flatten v)
            (processed state_trajectory) values /\
    length values = (length state_trajectory - 1)%nat /\
    forall e fc, geojsons !! e = Some fc ->
      length (features fc) = min (length ts) (length state_trajectory - 1) /\
      forall j f, features fc !! j = Some f ->
        exists t value_list,
          ts !! j = Some t /\
          values !! j = Some value_list /\
          value_list !! e = Some (value (properties f)) /\
          time (properties f) = isoformat t.
Proof.
  intros Hasm.
  apply assemble_features in Hasm as (cs & values & Hex & _ & _ & Hall).
  pose proof (extract_values _ _ _ _ Hex) as Hvalues.
  assert (Hn : length values = (length state_trajectory - 1)%nat).
  { rewrite <- (Forall2_length _ _ _ Hvalues); apply length_processed. }
  exists values; split; [exact Hvalues|]; split; [exact Hn|].
  intros e fc Hfc; destruct (Hall e fc Hfc) as (coord & _ & Hlen & Hfeat).
  split; [rewrite Hlen, Hn; reflexivity|].
  intros j f Hj.
  destruct (Hfeat j f Hj) as (t & vl & lon & lat & v & Ht & Hvl & _ & _ & Hv & ->).
  exists t, vl; auto.
Qed.

(** C6, as amended. Consecutive timestamps are exactly [step_time]
    seconds apart; the sequence is strictly increasing whenever
    [step_time] is positive. *)
Theorem C6_timestamps_spacing (self : GeoPlot) (start_time : Timestamp)
    (i : nat) (earlier later : Timestamp) :
  timestamps self start_time !! i = Some earlier ->
  timestamps self start_time !! S i = Some later ->
  (later - earlier = Timedelta (step_time self))%Z /\
  ((0 < step_time self)%Z -> (earlier < later)%Z).
Proof.
  intros He Hl.
  apply timestamps_lookup in He as [_ ->].
  apply timestamps_lookup in Hl as [_ ->].
  unfold Timedelta; split; [|intros Hpos]; lia.
Qed.

(** C7, as amended. A trajectory with fewer than two episodes raises no
    error in the assembly: the list of FeatureCollections is empty, the
    serialisation of that empty list is written to the [.geojson] file,
    and the call returns normally whenever the page can be produced. *)
Theorem C7_short_trajectory_silent (self : GeoPlot) (start_time : Timestamp)
    (state_trajectory : list (list state)) :
  (length state_trajectory < 2)%nat ->
  assemble' self start_time state_trajectory = Ok ([], timestamps self start_time) /\
  forall fs,
    geodata_path self ∉ locked fs ->
    files (fst (render' self start_time state_trajectory fs)) !! geodata_path self
      = Some (json_dump []) /\
    forall text,
      geoplot_path self ∉ locked fs ->
      page' self [] (timestamps self start_time) = Ok text ->
      snd (render' self start_time state_trajectory fs) = Ok tt /\
      files (fst (render' self start_time state_trajectory fs)) !! geoplot_path self
        = Some text.
Proof.
  intros Hshort.
  assert (Hasm : assemble' self start_time state_trajectory
                 = Ok ([], timestamps self start_time)).
  { unfold assemble; rewrite (extract_short _ _ Hshort); reflexivity. }
  split; [exact Hasm|]; intros fs Hdata.
  rewrite (render_assembled _ _ _ _ _ _ _ _ _ _ Hasm).
  destruct (decide (geodata_path self ∈ locked fs)); [contradiction|].
  pose proof (paths_differ self) as Hne.
  split.
  - destruct (decide (geoplot_path self ∈ locked fs)); simpl.
    + apply lookup_insert_eq.
    + destruct (page' self [] (timestamps self start_time)); simpl;
        (rewrite lookup_insert_ne by congruence); apply lookup_insert_eq.
  - intros text Hplot Hpage.
    destruct (decide (geoplot_path self ∈ locked fs)); [contradiction|].
    rewrite Hpage; simpl; split; [reflexivity | apply lookup_insert_eq].
Qed.


(** C10. The lookup [value_list[i]] is unguarded: when every processed
    episode's flattened property list is at least as long as the entity
    list of the last processed episode, the assembly never raises the
    index error of [value_list[i]]; and there is a trajectory violating
    that precondition on which [render] fails with that index error and
    writes nothing. *)
Theorem C10_value_lookup_unguarded :
  (forall self start_time state_trajectory,
     values_cover_entities self state_trajectory ->
     assemble' self start_time state_trajectory <> Err (IndexError ValueAt)) /\
  (exists self start_time state_trajectory,
     ~ values_cover_entities self state_trajectory /\
     forall fs,
       render' self start_time state_trajectory fs = (fs, Err (IndexError ValueAt))).
Proof.
  split.
  - intros self start_time state_trajectory Hcover Hasm.
    unfold assemble in Hasm.
    apply bind_Err in Hasm as [Hex | ([coords values] & Hex & Hasm)].
    { apply extract_Err in Hex as [[=] | []]. }
    simpl in Hasm; apply bind_Err in Hasm as [Hg | (g & _ & [=])].
    destruct coords as [x|cs]; [discriminate|]; simpl in Hg.
    apply mapM_Err in Hg as ([e coord] & Hin & Hcoll).
    apply list_elem_of_lookup in Hin as (k & Hk); apply enumerate_lookup in Hk as [-> Hcoord].
    unfold collection in Hcoll; simpl in Hcoll.
    apply bind_Err in Hcoll as [Hfs | (fs & _ & [=])].
    apply mapM_Err in Hfs as ([t vl] & Hin & Hfeat).
    apply list_elem_of_lookup in Hin as (j & Hj).
    apply lookup_zip_with_Some in Hj as (t' & vl' & [= <- <-] & _ & Hvl).
    unfold feature in Hfeat; simpl in Hfeat.
    apply bind_Err in Hfeat as [Hlon | (lon & _ & Hfeat)].
    { destruct coord; simpl in Hlon; [discriminate|].
      apply of_option_Err in Hlon as [_ [=]]. }
    apply bind_Err in Hfeat as [Hlat | (lat & _ & Hfeat)].
    { destruct coord; simpl in Hlat; [discriminate|].
      apply of_option_Err in Hlat as [_ [=]]. }
    apply bind_Err in Hfeat as [Hv | (v & _ & [=])].
    apply of_option_Err in Hv as [Hnone _]; apply lookup_ge_None in Hnone.
    apply lookup_lt_Some in Hcoord.
    (* the value list comes from a processed episode, the coordinates
       from the last processed one *)
    destruct (Nat.lt_ge_cases (length state_trajectory) 2) as [Hshort | Hlen].
    { rewrite (extract_short _ _ Hshort) in Hex; injection Hex as <- <-.
      simpl in Hcoord; lia. }
    destruct (lookup_lt_is_Some_2 state_trajectory (length state_trajectory - 2))
      as [final_episode Hfinal]; [lia|].
    pose proof (extract_values _ _ _ _ Hex) as Hvalues.
    destruct (Forall2_lookup_r _ _ _ _ _ Hvalues Hvl) as (episode & Hep & s & v & Hs & Hv & ->).
    apply extract_Ok in Hex as Hrows; destruct Hrows as (rows & Hrows & _ & _).
    assert (Hp : processed state_trajectory !! (length state_trajectory - 2)%nat
                 = Some final_episode).
    { unfold processed; rewrite lookup_take_lt by lia; exact Hfinal. }
    destruct (Forall2_lookup_l _ _ _ _ _ Hrows Hp) as (row & _ & Hproc).
    apply process_final_Ok in Hproc as (final_state & _ & Hlast & _).
    pose proof (extract_coords _ _ _ _ _ _ Hex Hlen Hfinal Hlast) as Hpos.
    pose proof (Hcover _ _ _ Hlen Hfinal Hlast Hpos _ _ _ _ Hep Hs Hv).
    lia.
  - exists (Sample.plot 3 2 1), 0%Z, Sample.short_trajectory; split.
    + intros Hcover.
      pose proof (Hcover [Sample.short_st] Sample.short_st
                    [Nest [Item (PyFloat 1.0); Item (PyFloat 2.0)];
                     Nest [Item (PyFloat 3.0); Item (PyFloat 4.0)]]
                    ltac:(simpl; lia) eq_refl eq_refl eq_refl
                    0%nat [Sample.short_st] Sample.short_st
                    (Nest [Nest [Item (PyInt 10)]]) eq_refl eq_refl eq_refl) as H.
      simpl in H; lia.
    + intros fs; apply render_assemble_Err; reflexivity.
Qed.

End Claims.

(** ** The worked trajectory, checked against the properties *)

Lemma Sample_valid : valid (Sample.plot 3 2 1) Sample.trajectory Sample.entities.
Proof.
  split.
  - intros i episode Hi.
    exists Sample.st, Sample.positions, Sample.consumption.
    destruct i as [|[|i]]; simpl in Hi; [injection Hi as <- ..|discriminate];
      (split; [reflexivity|]); (split; [reflexivity|]); (split; [reflexivity|]);
      simpl; lia.
  - intros e c He.
    destruct e as [|[|e]]; simpl in He; [injection He as <- ..|discriminate]; eauto.
Qed.

Lemma C1_witness :
  exists fc f,
    Sample.geojsons !! 0%nat = Some fc /\
    features fc !! 1%nat = Some f /\
    coordinates (geometry f) = [Item (PyFloat 2.0); Item (PyFloat 1.0)].
Proof.
  eexists _, _; split; [reflexivity|]; split; [reflexivity|].
  apply (C1_coordinates_lon_lat Sample.iso (Sample.plot 3 2 1) 0%Z Sample.trajectory
           Sample.geojsons (timestamps (Sample.plot 3 2 1) 0%Z)
           [Sample.st; Sample.st] Sample.st Sample.entities 0%nat
           (Item (PyFloat 1.0)) (Item (PyFloat 2.0)) _ _
           eq_refl ltac:(simpl; lia) eq_refl eq_refl eq_refl eq_refl eq_refl).
  apply (list_elem_of_lookup_2 _ 1%nat); reflexivity.
Defined.

Lemma C2_witness :
  exists geojsons,
    assemble Sample.iso (Sample.plot 3 2 1) 0%Z Sample.trajectory
      = Ok (geojsons, timestamps (Sample.plot 3 2 1) 0%Z) /\
    length geojsons = 2%nat.
Proof.
  apply (C2_one_collection_per_entity Sample.iso (Sample.plot 3 2 1) 0%Z Sample.trajectory
           [Sample.st; Sample.st] Sample.st Sample.entities
           ltac:(simpl; lia) eq_refl eq_refl eq_refl).
  exact Sample_valid.
Defined.

Lemma C3_witness :
  assemble Sample.iso (Sample.plot 3 2 1) 0%Z
    [[Sample.short_st; Sample.st]; [Sample.st]; []]
  = assemble Sample.iso (Sample.plot 3 2 1) 0%Z Sample.trajectory.
Proof.
  apply (C3_processed_episodes Sample.iso (Sample.plot 3 2 1) 0%Z Sample.trajectory).
  reflexivity.
Defined.

Lemma C4_witness :
  timestamps (Sample.plot 3 2 1) 1700000000000000000%Z !! 5%nat
  = Some 1700000005000000000%Z.
Proof.
  apply (C4_timestamps_synthesized Sample.iso (Sample.plot 3 2 1)
           1700000000000000000%Z Sample.trajectory).
  reflexivity.
Defined.

Lemma C5_witness :
  exists values : list (list scalar),
    length values = 2%nat /\
    forall e fc, Sample.geojsons !! e = Some fc ->
      length (features fc) = 2%nat.
Proof.
  destruct (C5_features_per_collection Sample.iso (Sample.plot 3 2 1) 0%Z Sample.trajectory
              Sample.geojsons (timestamps (Sample.plot 3 2 1) 0%Z) eq_refl)
    as (values & _ & Hn & Hall).
  exists values; split; [exact Hn|].
  intros e fc Hfc; exact (proj1 (Hall e fc Hfc)).
Defined.

Lemma C6_witness :
  (1000000000 - 0 = Timedelta 1)%Z /\ (0 < 1000000000)%Z.
Proof.
  destruct (C6_timestamps_spacing (Sample.plot 3 2 1) 0%Z 0%nat 0%Z 1000000000%Z
              eq_refl eq_refl) as [Hgap Hlt].
  split; [exact Hgap | apply Hlt; reflexivity].
Defined.

(** C6 as stated fails: with [step_time = 0] all timestamps coincide. *)
Lemma C6_counterexample :
  exists earlier later,
    timestamps (Sample.plot 3 2 0) 0%Z !! 0%nat = Some earlier /\
    timestamps (Sample.plot 3 2 0) 0%Z !! 1%nat = Some later /\
    (later <= earlier)%Z.
Proof. exists 0%Z, 0%Z; split; [reflexivity|]; split; [reflexivity | lia]. Qed.

Lemma C7_witness :
  assemble Sample.iso (Sample.plot 3 2 1) 0%Z [[Sample.st; Sample.st]]
  = Ok ([], timestamps (Sample.plot 3 2 1) 0%Z).
Proof.
  apply (C7_short_trajectory_silent Sample.iso Sample.dump Sample.dump Sample.subst
           (Sample.plot 3 2 1) 0%Z [[Sample.st; Sample.st]]).
  simpl; lia.
Defined.

(** C7 as stated fails: on the empty trajectory and on a trajectory of one
    episode the call returns normally and both files are written, the
    [.geojson] file holding the serialisation of an empty list. *)
Lemma C7_counterexample :
  snd (render Sample.iso Sample.dump Sample.dump Sample.subst
         (Sample.plot 3 2 1) 0%Z [] Sample.empty_fs) = Ok tt /\
  snd (render Sample.iso Sample.dump Sample.dump Sample.subst
         (Sample.plot 3 2 1) 0%Z [[Sample.st; Sample.st]] Sample.empty_fs) = Ok tt /\
  files (fst (render Sample.iso Sample.dump Sample.dump Sample.subst
                (Sample.plot 3 2 1) 0%Z [[Sample.st; Sample.st]] Sample.empty_fs))
    !! "sim.geojson" = Some (Sample.dump []) /\
  is_Some (files (fst (render Sample.iso Sample.dump Sample.dump Sample.subst
                         (Sample.plot 3 2 1) 0%Z [[Sample.st; Sample.st]] Sample.empty_fs))
             !! "sim.html").
Proof.
  split; [vm_compute; reflexivity|]; split; [vm_compute; reflexivity|].
  split; [vm_compute; reflexivity|]; vm_compute; eauto.
Qed.



Lemma C10_witness :
  assemble Sample.iso (Sample.plot 3 2 1) 0%Z Sample.trajectory
  <> Err (IndexError ValueAt).
Proof.
  apply (proj1 (C10_value_lookup_unguarded Sample.iso Sample.dump Sample.dump Sample.subst)).
  intros final_episode final_state cs _ Hfinal Hlast Hpos i episode s v Hep Hs Hv.
  injection Hfinal as <-; injection Hlast as <-; injection Hpos as <-.
  destruct i as [|[|i]]; simpl in Hep; [injection Hep as <- ..|discriminate];
    injection Hs as <-; injection Hv as <-; simpl; lia.
Defined.

(** ** Further properties: path splitting *)

Lemma re_split_cons (sep : ascii) (s : string) :
  exists w ws, re_split sep s = w :: ws.
Proof.
  destruct s as [|c rest]; simpl; [eauto|].
  destruct (Ascii.eqb c sep); [eauto|].
  destruct (re_split sep rest); eauto.
Qed.

Lemma concat_cons_cons (sep x y : string) (l : list string) :
  String.concat sep (x :: y :: l) = x ++ sep ++ String.concat sep (y :: l).
Proof. reflexivity. Qed.

Lemma concat_String_head (sep : string) (c : ascii) (w : string) (ws : list string) :
  String.concat sep (String c w :: ws) = String c (String.concat sep (w :: ws)).
Proof. destruct ws; reflexivity. Qed.

Lemma re_split_append (sep : ascii) (k s : string) :
  contains sep k = false ->
  re_split sep (k ++ String sep s) = k :: re_split sep s.
Proof.
  induction k as [|c k IH]; simpl.
  - intros _; rewrite Ascii.eqb_refl; reflexivity.
  - destruct (Ascii.eqb c sep); [discriminate|].
    intros Hk; rewrite (IH Hk); reflexivity.
Qed.

Lemma re_split_slash_free (sep : ascii) (k : string) :
  contains sep k = false -> re_split sep k = [k].
Proof.
  induction k as [|c k IH]; simpl; [reflexivity|].
  destruct (Ascii.eqb c sep); [discriminate|].
  intros Hk; rewrite (IH Hk); reflexivity.
Qed.

(** X1. Splitting loses nothing: joining the pieces of [re.split("/", var)]
    with the separator gives [var] back, there is at least one piece, and
    no piece contains the separator. *)
Theorem X1_re_split_join (sep : ascii) (var : string) :
  String.concat (String sep "") (re_split sep var) = var /\
  re_split sep var <> [] /\
  Forall (fun piece => contains sep piece = false) (re_split sep var).
Proof.
  split; [|split].
  - induction var as [|c rest IH]; simpl; [reflexivity|].
    destruct (Ascii.eqb c sep) eqn:Hc.
    + apply Ascii.eqb_eq in Hc as ->.
      destruct (re_split_cons sep rest) as (w & ws & Hw).
      rewrite Hw in IH |- *; rewrite concat_cons_cons, IH; reflexivity.
    + destruct (re_split_cons sep rest) as (w & ws & Hw).
      rewrite Hw in IH |- *; rewrite concat_String_head, IH; reflexivity.
  - destruct (re_split_cons sep var) as (w & ws & ->); discriminate.
  - induction var as [|c rest IH]; simpl; [repeat constructor|].
    destruct (Ascii.eqb c sep) eqn:Hc; [constructor; [reflexivity | exact IH]|].
    destruct (re_split_cons sep rest) as (w & ws & Hw); rewrite Hw in IH |- *.
    inversion IH as [|? ? Hhead Htail]; subst.
    constructor; [simpl; rewrite Hc; exact Hhead | exact Htail].
Qed.

(** X2. A path written as keys joined by slashes is read key by key:
    for a non-empty list of keys none of which contains a slash,
    [read_var(state, "k1/k2/...")] is the lookup of [k1], then [k2], and
    so on. *)
Theorem X2_read_var_keys (s : state) (keys : list string) :
  keys <> [] ->
  Forall (fun k => contains "/" k = false) keys ->
  read_var s (String.concat "/" keys) = get_by_path s keys.
Proof.
  intros Hne Hfree; unfold read_var; f_equal.
  induction Hfree as [|k ks Hk Hks IH]; [contradiction|].
  destruct ks as [|k' ks].
  - simpl; apply re_split_slash_free, Hk.
  - rewrite concat_cons_cons.
    change ("/" ++ String.concat "/" (k' :: ks))
      with (String "/" (String.concat "/" (k' :: ks))).
    rewrite (re_split_append _ _ _ Hk), IH by discriminate; reflexivity.
Qed.

Lemma X2_witness :
  read_var Sample.st "agents/households/pos"
  = get_by_path Sample.st ["agents"; "households"; "pos"].
Proof.
  apply (X2_read_var_keys Sample.st ["agents"; "households"; "pos"]).
  - discriminate.
  - repeat constructor.
Defined.

(** ** Further properties: when the assembly succeeds and how it fails *)




Section AssemblyOutcome.
Variable isoformat : Timestamp -> string.






End AssemblyOutcome.

(** ** Further properties: the shape of the output *)

Section OutputShape.
Variable isoformat : Timestamp -> string.


(** X6. Positions are static and times are shared: all Features of one
    collection have the same geometry, every collection has the same
    number of Features, and the [j]-th Feature of every collection carries
    the time [isoformat(start_time + j * step_time seconds)]. *)
Theorem X6_static_positions_shared_times (self : GeoPlot) (start_time : Timestamp)
    (state_trajectory : list (list state))
    (geojsons : list FeatureCollection) (ts : list Timestamp) :
  assemble isoformat self start_time state_trajectory = Ok (geojsons, ts) ->
  (forall fc f f', fc ∈ geojsons -> f ∈ features fc -> f' ∈ features fc ->
     geometry f = geometry f') /\
  (forall fc fc', fc ∈ geojsons -> fc' ∈ geojsons ->
     length (features fc) = length (features fc')) /\
  (forall fc j f, fc ∈ geojsons -> features fc !! j = Some f ->
     time (properties f)
       = isoformat (start_time + Timedelta (Z.of_nat j * step_time self))%Z).
Proof.
  intros Hasm.
  apply assemble_features in Hasm as (cs & values & _ & -> & _ & Hall).
  split; [|split].
  - intros fc f f' Hfc Hf Hf'.
    apply list_elem_of_lookup in Hfc as (e & He).
    destruct (Hall e fc He) as (coord & _ & _ & Hfeat).
    apply list_elem_of_lookup in Hf as (j & Hj), Hf' as (j' & Hj').
    destruct (Hfeat j f Hj) as (t & vl & lon & lat & v & _ & _ & Hlon & Hlat & _ & ->).
    destruct (Hfeat j' f' Hj') as (t' & vl' & lon' & lat' & v' & _ & _ & Hlon' & Hlat' & _ & ->).
    simpl; congruence.
  - intros fc fc' Hfc Hfc'.
    apply list_elem_of_lookup in Hfc as (e & He), Hfc' as (e' & He').
    destruct (Hall e fc He) as (_ & _ & -> & _).
    destruct (Hall e' fc' He') as (_ & _ & -> & _); reflexivity.
  - intros fc j f Hfc Hj.
    apply list_elem_of_lookup in Hfc as (e & He).
    destruct (Hall e fc He) as (coord & _ & _ & Hfeat).
    destruct (Hfeat j f Hj) as (t & vl & lon & lat & v & Ht & _ & _ & _ & _ & ->).
    apply timestamps_lookup in Ht as [_ ->]; reflexivity.
Qed.

End OutputShape.

(** ** Further properties: the outcome of [render] *)


Section RenderOutcome.
Variable isoformat : Timestamp -> string.
Variable json_dump : list FeatureCollection -> string.
Variable json_dumps : list FeatureCollection -> string.
Variable substitute : list (string * string) -> option string.

Abbreviation assemble' := (assemble isoformat).
Abbreviation render' := (render isoformat json_dump json_dumps substitute).
Abbreviation page' := (page isoformat json_dumps substitute).



(** X8. [render] keeps to its two files: whatever the outcome, every path
    other than [{name}.geojson] and [{name}.html] holds what it held before
    the call. *)
Theorem X8_render_frame (self : GeoPlot) (start_time : Timestamp)
    (state_trajectory : list (list state)) (fs : filesystem) (path : string) :
  path <> geodata_path self ->
  path <> geoplot_path self ->
  files (fst (render' self start_time state_trajectory fs)) !! path = files fs !! path.
Proof.
  intros Hdata Hplot.
  destruct (assemble' self start_time state_trajectory) as [[geojsons ts]|e0] eqn:Hasm.
  - rewrite (render_assembled _ _ _ _ _ _ _ _ _ _ Hasm).
    destruct (decide (geodata_path self ∈ locked fs)); [reflexivity|].
    destruct (decide (geoplot_path self ∈ locked fs)); simpl.
    { apply lookup_insert_ne; congruence. }
    destruct (page' self geojsons ts); simpl;
      rewrite !lookup_insert_ne by congruence; reflexivity.
  - rewrite (render_assemble_Err _ _ _ _ _ _ _ _ _ Hasm); reflexivity.
Qed.


(** X10. The time bounds of the page: the page is produced exactly when
    there is at least one timestamp and the template substitution
    succeeds on the mapping whose start time is the wall-clock reading and
    whose stop time is [(n - 1) * step_time] seconds later, [n] being
    [num_episodes * num_steps_per_episode]. *)
Theorem X10_page_time_bounds (self : GeoPlot) (start_time : Timestamp)
    (geojsons : list FeatureCollection) (text : string) :
  page' self geojsons (timestamps self start_time) = Ok text <->
  (0 < num_episodes (config self) * num_steps_per_episode (config self))%Z /\
  substitute
    [("accessToken", cesium_token self);
     ("startTime", isoformat start_time);
     ("stopTime",
      isoformat (start_time
                 + Timedelta ((num_episodes (config self)
                               * num_steps_per_episode (config self) - 1)
                              * step_time self))%Z);
     ("data", json_dumps geojsons);
     ("visualType", visualization_type self)] = Some text.
Proof.
  set (n := (num_episodes (config self) * num_steps_per_episode (config self))%Z).
  unfold page; split.
  - intros H; apply bind_Ok in H as (t0 & Ht0 & H); apply of_option_Ok in Ht0.
    apply bind_Ok in H as (tn & Htn & H); apply of_option_Ok in Htn, H.
    apply timestamps_lookup in Ht0 as [Hpos ->]; fold n in Hpos.
    rewrite last_lookup, length_timestamps in Htn; fold n in Htn.
    apply timestamps_lookup in Htn as [_ ->].
    split; [lia|].
    replace (start_time + Timedelta (Z.of_nat 0 * step_time self))%Z with start_time in H
      by (unfold Timedelta; lia).
    replace (Z.of_nat (pred (Z.to_nat n))) with (n - 1)%Z in H by lia.
    exact H.
  - intros [Hpos Hsub].
    assert (H0 : timestamps self start_time !! 0%nat = Some start_time).
    { apply timestamps_lookup; fold n; split; [lia | unfold Timedelta; lia]. }
    assert (Hn : last (timestamps self start_time)
                 = Some (start_time + Timedelta ((n - 1) * step_time self))%Z).
    { rewrite last_lookup, length_timestamps; fold n; apply timestamps_lookup; fold n.
      replace (Z.of_nat (pred (Z.to_nat n))) with (n - 1)%Z by lia.
      split; [lia | reflexivity]. }
    rewrite H0, Hn; simpl; rewrite Hsub; reflexivity.
Qed.

(** X11. Rendering again changes nothing: after a call that returned
    normally, the same call (same wall-clock reading) returns normally
    again and leaves the file system as the first call left it. *)
Theorem X11_render_idempotent (self : GeoPlot) (start_time : Timestamp)
    (state_trajectory : list (list state)) (fs fs' : filesystem) :
  render' self start_time state_trajectory fs = (fs', Ok tt) ->
  render' self start_time state_trajectory fs' = (fs', Ok tt).
Proof.
  intros Hr.
  destruct (assemble' self start_time state_trajectory) as [[geojsons ts]|e0] eqn:Hasm.
  - rewrite (render_assembled _ _ _ _ _ _ _ fs _ _ Hasm) in Hr.
    rewrite (render_assembled _ _ _ _ _ _ _ fs' _ _ Hasm).
    pose proof (paths_differ self) as Hne.
    destruct (decide (geodata_path self ∈ locked fs)); [discriminate|].
    destruct (decide (geoplot_path self ∈ locked fs)); [discriminate|].
    destruct (page' self geojsons ts) as [text|e1]; [|discriminate].
    injection Hr as <-; simpl.
    destruct (decide (geodata_path self ∈ locked fs)); [contradiction|].
    destruct (decide (geoplot_path self ∈ locked fs)); [contradiction|].
    do 2 f_equal; apply map_eq; intros path.
    destruct (decide (path = geoplot_path self)) as [->|Hp].
    { rewrite !lookup_insert_eq; reflexivity. }
    rewrite !(lookup_insert_ne _ (geoplot_path self)) by congruence.
    destruct (decide (path = geodata_path self)) as [->|Hd].
    { rewrite !lookup_insert_eq; reflexivity. }
    rewrite !(lookup_insert_ne _ (geodata_path self)) by congruence.
    rewrite !(lookup_insert_ne _ (geoplot_path self)) by congruence.
    rewrite !(lookup_insert_ne _ (geodata_path self)) by congruence.
    reflexivity.
  - rewrite (render_assemble_Err _ _ _ _ _ _ _ _ _ Hasm) in Hr; discriminate.
Qed.

End RenderOutcome.

(** ** Further properties: flattening *)

Lemma flatten_vector (xs : list scalar) : flatten (Nest (map Item xs)) = xs.
Proof. simpl; induction xs as [|x xs IH]; simpl; [|rewrite IH]; reflexivity. Qed.

Lemma flatten_column (xs : list scalar) :
  flatten (Nest (map (fun x => Nest [Item x]) xs)) = xs.
Proof. simpl; induction xs as [|x xs IH]; simpl; [|rewrite IH]; reflexivity. Qed.

(** X12. The layout of the property array does not matter: a vector of
    [n] scalars, a [1 x n] row and an [n x 1] column all flatten to the
    same list of [n] scalars, and flattening a sequence of sub-arrays
    concatenates their flattenings in order. *)
Theorem X12_flatten_layouts (xs : list scalar) (rows rows' : list nested) :
  flatten (Nest (map Item xs)) = xs /\
  flatten (Nest [Nest (map Item xs)]) = xs /\
  flatten (Nest (map (fun x => Nest [Item x]) xs)) = xs /\
  flatten (Nest (rows ++ rows')) = (flatten (Nest rows) ++ flatten (Nest rows'))%list.
Proof.
  split; [apply flatten_vector|]; split; [|split].
  - pose proof (flatten_vector xs) as Hvec.
    simpl in Hvec |- *; rewrite Hvec; apply app_nil_r.
  - apply flatten_column.
  - simpl; apply flat_map_app.
Qed.

(** ** The further properties on the worked trajectory *)




Lemma X6_witness :
  exists fc f,
    Sample.geojsons !! 1%nat = Some fc /\
    features fc !! 1%nat = Some f /\
    time (properties f) = Sample.iso 1000000000%Z.
Proof.
  eexists _, _; split; [reflexivity|]; split; [reflexivity|].
  pose proof (proj2 (proj2 (X6_static_positions_shared_times Sample.iso (Sample.plot 3 2 1)
                              0%Z Sample.trajectory Sample.geojsons
                              (timestamps (Sample.plot 3 2 1) 0%Z) eq_refl))) as Htime.
  eapply (Htime _ 1%nat).
  - apply (list_elem_of_lookup_2 _ 1%nat); reflexivity.
  - reflexivity.
Defined.


Lemma X8_witness :
  files (fst (render Sample.iso Sample.dump Sample.dump Sample.subst
                (Sample.plot 3 2 1) 0%Z Sample.trajectory
                {| files := {["notes.txt" := "keep"]}; locked := ∅ |}))
    !! "notes.txt" = Some "keep".
Proof.
  rewrite (X8_render_frame Sample.iso Sample.dump Sample.dump Sample.subst
             (Sample.plot 3 2 1) 0%Z Sample.trajectory
             {| files := {["notes.txt" := "keep"]}; locked := ∅ |} "notes.txt").
  - reflexivity.
  - discriminate.
  - discriminate.
Defined.

Lemma X11_witness :
  render Sample.iso Sample.dump Sample.dump Sample.subst
    (Sample.plot 3 2 1) 0%Z Sample.trajectory
    (fst (render Sample.iso Sample.dump Sample.dump Sample.subst
            (Sample.plot 3 2 1) 0%Z Sample.trajectory Sample.empty_fs))
  = (fst (render Sample.iso Sample.dump Sample.dump Sample.subst
            (Sample.plot 3 2 1) 0%Z Sample.trajectory Sample.empty_fs), Ok tt).
Proof.
  apply (X11_render_idempotent Sample.iso Sample.dump Sample.dump Sample.subst
           (Sample.plot 3 2 1) 0%Z Sample.trajectory Sample.empty_fs).
  vm_compute; reflexivity.
Defined.
